(** * Locale resolution, translation lookup and content schemas of the pages site

    The site keeps its locale logic in one module ([languages],
    [defaultLang], [ui], [getLangFromUrl], [useTranslations]) and its
    content schemas in [src/content/config.ts].  This development embeds
    those definitions and states what they do. *)

From Stdlib Require Import String Ascii List Bool Arith ZArith Lia.
Import ListNotations.
Open Scope string_scope.

(** ** The fragment of the JavaScript runtime the code relies on *)

Module Js.

(** An object literal whose properties are all strings, in insertion
    order: [{ k1: 's1', k2: 's2' }]. *)
Definition object := list (string * string).

(** The values a property read on such an object can produce. *)
Inductive value :=
| Undefined
| Str (s : string)
| Inherited (name : string).  (* a member of Object.prototype *)

(** Own property lookup. *)
Fixpoint own {A : Type} (o : list (string * A)) (key : string) : option A :=
  match o with
  | [] => None
  | (k, v) :: o' => if String.eqb k key then Some v else own o' key
  end.

Definition keys {A : Type} (o : list (string * A)) : list string :=
  map fst o.

(** Every object literal has [Object.prototype] as its prototype; these
    are its property names. *)
Definition object_prototype_keys : list string :=
  [ "constructor"; "hasOwnProperty"; "isPrototypeOf";
    "propertyIsEnumerable"; "toLocaleString"; "toString"; "valueOf";
    "__proto__"; "__defineGetter__"; "__defineSetter__";
    "__lookupGetter__"; "__lookupSetter__" ].

Definition mem (k : string) (ks : list string) : bool :=
  existsb (String.eqb k) ks.

(** [key in o]: own properties first, then the prototype chain. *)
Definition has_property (own_keys : list string) (key : string) : bool :=
  mem key own_keys || mem key object_prototype_keys.

(** [o[key]]. *)
Definition get (o : object) (key : string) : value :=
  match own o key with
  | Some s => Str s
  | None => if mem key object_prototype_keys then Inherited key else Undefined
  end.

(** ToBoolean. *)
Definition truthy (v : value) : bool :=
  match v with
  | Undefined => false
  | Str s => negb (String.eqb s "")
  | Inherited _ => true
  end.

(** [a || b]. *)
Definition logical_or (a b : value) : value := if truthy a then a else b.

(** ToPropertyKey on a string or [undefined] ([None]). *)
Definition to_property_key (v : option string) : string :=
  match v with
  | Some s => s
  | None => "undefined"
  end.

(** [s.split(sep)] for a one-character separator. *)
Fixpoint split (sep : ascii) (s : string) : list string :=
  match s with
  | EmptyString => [EmptyString]
  | String c rest =>
      if Ascii.eqb c sep then EmptyString :: split sep rest
      else match split sep rest with
           | seg :: segs => String c seg :: segs
           | [] => [String c EmptyString]
           end
  end.

(** [segs.join(sep)] for a one-character separator. *)
Fixpoint join (sep : ascii) (segs : list string) : string :=
  match segs with
  | [] => EmptyString
  | [seg] => seg
  | seg :: segs' => seg ++ String sep (join sep segs')
  end.

(** [s.includes(c)] for a character [c]. *)
Fixpoint includes (c : ascii) (s : string) : bool :=
  match s with
  | EmptyString => false
  | String c' rest => Ascii.eqb c' c || includes c rest
  end.

(** Every string an object registers is non-empty. *)
Definition all_non_empty (o : object) : bool :=
  forallb (fun kv => negb (String.eqb (snd kv) "")) o.

(** The part of a [URL] object the code reads. *)
Record URL := { pathname : string }.

End Js.

(** ** The locale module: the tables and the two lookup functions *)

Module I18n.
Import Js.

Definition languages : object :=
  [ ("zh", "中文"); ("en", "English") ].

(** [keyof typeof ui]. *)
Inductive Lang := zh | en.

Definition code (l : Lang) : string :=
  match l with zh => "zh" | en => "en" end.

Definition defaultLang : Lang := zh.

(** [typeof ui]: one table per language. *)
Record tables := { zh_table : object; en_table : object }.

Definition ui : tables :=
  {| zh_table :=
       [ ("nav.home", "首页");
         ("nav.about", "关于项目");
         ("nav.team", "研究团队");
         ("nav.news", "新闻动态");
         ("nav.contact", "联系我们");
         ("footer.copyright", "版权所有");
         ("footer.all_rights_reserved", "保留所有权利");
         ("home.hero.title", "UOS");
         ("home.hero.subtitle", "面向电力信息场景的人机物融合操作系统");
         ("home.hero.description", "工业互联网软件平台发展的新阶段");
         ("home.features.title", "核心特点");
         ("home.features.ubiquitous.title", "泛在互联");
         ("home.features.ubiquitous.desc", "支持全生产要素的有序互动");
         ("home.features.software.title", "软件定义");
         ("home.features.software.desc", "以软件驾驭系统复杂性");
         ("home.features.intelligent.title", "智能驱动");
         ("home.features.intelligent.desc", "实现智能化管控的资源管理");
         ("about.title", "关于项目");
         ("team.title", "研究团队");
         ("news.title", "新闻动态");
         ("news.read_more", "阅读更多");
         ("news.back", "返回新闻列表");
         ("contact.title", "联系我们");
         ("contact.email", "邮箱");
         ("contact.address", "地址");
         ("contact.phone", "电话") ];
     en_table :=
       [ ("nav.home", "Home");
         ("nav.about", "About");
         ("nav.team", "Team");
         ("nav.news", "News");
         ("nav.contact", "Contact");
         ("footer.copyright", "Copyright");
         ("footer.all_rights_reserved", "All rights reserved");
         ("home.hero.title", "UOS");
         ("home.hero.subtitle", "Human-Cyber-Physical Convergence Operating System for Power Information Scenarios");
         ("home.hero.description", "The New Stage of Industrial Internet Software Platform Development");
         ("home.features.title", "Core Features");
         ("home.features.ubiquitous.title", "Ubiquitous Connectivity");
         ("home.features.ubiquitous.desc", "Supporting orderly interaction of all production elements");
         ("home.features.software.title", "Software-Defined");
         ("home.features.software.desc", "Controlling system complexity through software");
         ("home.features.intelligent.title", "Intelligence-Driven");
         ("home.features.intelligent.desc", "Implementing intelligent resource management");
         ("about.title", "About the Project");
         ("team.title", "Research Team");
         ("news.title", "News");
         ("news.read_more", "Read More");
         ("news.back", "Back to News");
         ("contact.title", "Contact Us");
         ("contact.email", "Email");
         ("contact.address", "Address");
         ("contact.phone", "Phone") ] |}.

(** The own property names of the [ui] object. *)
Definition ui_keys : list string := [ code zh; code en ].

(** [u[lang]] for [lang : keyof typeof ui]. *)
Definition table_of (u : tables) (lang : Lang) : object :=
  match lang with zh => zh_table u | en => en_table u end.

(** [getLangFromUrl(url)].  The destructuring [const [, lang] = ...]
    takes element 1 of the split, [undefined] ([None]) when there is
    none; the cast [lang as keyof typeof ui] is erased at run time. *)
Definition getLangFromUrl (url : URL) : option string :=
  let lang := nth_error (split "/" (pathname url)) 1 in
  if has_property ui_keys (to_property_key lang) then lang
  else Some (code defaultLang).

(** [useTranslations(lang)(key)] over a given locale table. *)
Definition useTranslations_on (u : tables) (lang : Lang) (key : string) : value :=
  logical_or (get (table_of u lang) key) (get (table_of u defaultLang) key).

(** [useTranslations(lang)], the function [t], over the site's [ui]. *)
Definition useTranslations (lang : Lang) : string -> value :=
  useTranslations_on ui lang.

(** The [i18n] block of the site configuration ([defineConfig]). *)
Definition i18n_defaultLocale : string := "zh".
Definition i18n_locales : list string := [ "zh"; "en" ].

(** The supported language codes: the keys of [languages]. *)
Definition supported : list string := keys languages.

End I18n.

(** ** src/content/config.ts: the collection schemas, and their loading *)

Module Content.
Import Js.

(** The schema combinators the configuration files use:
    [z.string()], [z.date()], [z.enum([...])] and [.optional()]. *)
Inductive zod :=
| z_string
| z_date
| z_enum (values : list string)
| z_optional (inner : zod).

(** [z.object({ ... })]: the fields in declaration order. *)
Definition z_object := list (string * zod).

(** [defineCollection({ type, schema })]. *)
Record collection := { type : string; schema : z_object }.

(** src/content/config.ts *)
Definition news : collection :=
  {| type := "content";
     schema := [ ("title", z_string);
                 ("description", z_string);
                 ("pubDate", z_date);
                 ("lang", z_optional z_string) ] |}.

Definition docs : collection :=
  {| type := "content";
     schema := [ ("title", z_string);
                 ("description", z_string);
                 ("pubDate", z_date);
                 ("lang", z_optional z_string) ] |}.

Definition collections : list (string * collection) :=
  [ ("news", news); ("docs", docs) ].

(** The second content configuration of the repository, which declares
    the news collection alone. *)
Definition newsCollection : collection :=
  {| type := "content";
     schema := [ ("title", z_string);
                 ("description", z_string);
                 ("pubDate", z_date);
                 ("lang", z_enum ["zh"; "en"]);
                 ("image", z_optional z_string) ] |}.

Definition collections' : list (string * collection) :=
  [ ("news", newsCollection) ].

(** A front-matter value as the front-matter parser hands it over: the
    parser, not this core, turns date text into a date (here its epoch
    milliseconds; the parser yields valid dates only). *)
Inductive fm :=
| FStr (s : string)
| FDate (ms : Z)
| FNum (n : Z)
| FBool (b : bool)
| FNull.

(** A raw document: front-matter key/value pairs and body text. *)
Record RawDocument := { frontmatter : list (string * fm); raw_body : string }.

(** A Document Record: the validated fields and the body. *)
Record DocumentRecord := { data : list (string * fm); body : string }.

(** Why a field fails: missing required field, wrong type, or
    unrecognized value. *)
Inductive reason := MissingField | WrongType | UnrecognizedValue.

Record ValidationError :=
  { in_collection : string; document : nat; field : string; why : reason }.

(** Modelled from the spec: the reading of a field constraint.  The
    validation library behind [z] is not part of the repository; a
    constraint is read as "field name -> required type/constraint"
    (a missing required field, a wrong type and an unrecognized value
    are the three failures), an optional field admitting absence. *)
Fixpoint check (z : zod) (v : option fm) : option reason :=
  match z with
  | z_string =>
      match v with
      | None => Some MissingField
      | Some (FStr _) => None
      | Some _ => Some WrongType
      end
  | z_date =>
      match v with
      | None => Some MissingField
      | Some (FDate _) => None
      | Some _ => Some WrongType
      end
  | z_enum values =>
      match v with
      | None => Some MissingField
      | Some (FStr s) => if mem s values then None else Some UnrecognizedValue
      | Some _ => Some WrongType
      end
  | z_optional inner =>
      match v with
      | None => None
      | Some _ => check inner v
      end
  end.

(** Modelled from the spec: validation of one front-matter block against
    a schema.  The fields are checked in declaration order; the first
    offending field is the one the error names; an accepted block keeps,
    under the same name, the value of every declared field it has. *)
Fixpoint parse (s : z_object) (front : list (string * fm))
  : list (string * fm) + string * reason :=
  match s with
  | [] => inl []
  | (k, z) :: s' =>
      match check z (own front k) with
      | Some r => inr (k, r)
      | None =>
          match parse s' front with
          | inl d =>
              inl (match own front k with
                   | Some v => (k, v) :: d
                   | None => d
                   end)
          | inr e => inr e
          end
      end
  end.

(** Modelled from the spec: a raw document becomes a Document Record or
    is rejected as a whole. *)
Definition validate (s : z_object) (d : RawDocument)
  : DocumentRecord + string * reason :=
  match parse s (frontmatter d) with
  | inl fields => inl {| data := fields; body := raw_body d |}
  | inr e => inr e
  end.

Record LoadResult :=
  { records : list DocumentRecord; errors : list ValidationError }.

(** Modelled from the spec: [loadCollection(collectionName, schema,
    rawDocuments)], the loader of the content framework, which is not
    part of the repository.  Each document is validated on its own, in
    discovery order; a failing one yields one [ValidationError] that
    identifies the document (by its position) and the field, and does
    not stop the others.  [i] is the position of the first document. *)
Fixpoint load_from (i : nat) (name : string) (s : z_object)
    (raw : list RawDocument) : LoadResult :=
  match raw with
  | [] => {| records := []; errors := [] |}
  | d :: raw' =>
      let rest := load_from (S i) name s raw' in
      match validate s d with
      | inl r => {| records := r :: records rest; errors := errors rest |}
      | inr (f, w) =>
          {| records := records rest;
             errors := {| in_collection := name; document := i;
                          field := f; why := w |} :: errors rest |}
      end
  end.

Definition loadCollection (name : string) (s : z_object)
    (raw : list RawDocument) : LoadResult :=
  load_from 0 name s raw.

(** A document is accepted when validation gives a record. *)
Definition accepted (s : z_object) (d : RawDocument) : bool :=
  match validate s d with inl _ => true | inr _ => false end.

(** A field offends a schema in a document when the schema declares it
    with a constraint that the document's value fails. *)
Definition offends (s : z_object) (d : RawDocument) (f : string) : bool :=
  existsb
    (fun kz =>
       String.eqb (fst kz) f &&
       match check (snd kz) (own (frontmatter d) f) with
       | Some _ => true
       | None => false
       end)
    s.

(** The three required fields are present with their types. *)
Definition has_string (d : RawDocument) (f : string) : bool :=
  match own (frontmatter d) f with Some (FStr _) => true | _ => false end.

Definition has_date (d : RawDocument) (f : string) : bool :=
  match own (frontmatter d) f with Some (FDate _) => true | _ => false end.

Definition required_fields_ok (d : RawDocument) : bool :=
  has_string d "title" && has_string d "description" && has_date d "pubDate".

(** The record an accepted document becomes, as a list of zero or one. *)
Definition record_of (s : z_object) (d : RawDocument) : list DocumentRecord :=
  match validate s d with inl r => [r] | inr _ => [] end.

(** The errors reported for the document at position [i]. *)
Definition errors_of (i : nat) (es : list ValidationError) : list ValidationError :=
  filter (fun e => Nat.eqb (document e) i) es.

End Content.

(** ** The operations as the specification words them *)

Module Spec.
Import Js.

(** "Inspect the first non-empty path segment." *)
Definition first_non_empty (segments : list string) : option string :=
  find (fun seg => negb (String.eqb seg "")) segments.

(** [resolveLanguage(requestPath, supportedLanguages, defaultLanguage)]
    as the specification states its algorithm. *)
Definition resolveLanguage (requestPath : string)
    (supportedLanguages : list string) (defaultLanguage : string) : string :=
  match first_non_empty (split "/" requestPath) with
  | Some seg => if mem seg supportedLanguages then seg else defaultLanguage
  | None => defaultLanguage
  end.

End Spec.

(** ** Front matter of three news entries of the repository *)

Module Samples.
Import Content.
Open Scope Z_scope.

(** src/content/news/project-launch-en.md, dated 2024-01-15. *)
Definition project_launch_en : RawDocument :=
  {| frontmatter :=
       [ ("title", FStr "UOS Project Officially Launched");
         ("description", FStr "The Human-Cyber-Physical Convergence Operating System project for power information scenarios has been officially launched, with Nanjing University and industry partners working together to advance the project.");
         ("pubDate", FDate 1705276800000);
         ("lang", FStr "en") ];
     raw_body := "## Official Project Launch" |}.

(** The standards entry, dated 2025-06-10. *)
Definition standards_progress_en : RawDocument :=
  {| frontmatter :=
       [ ("title", FStr "Significant Progress in Standards Development");
         ("description", FStr "The UOS project has made important progress in developing resource model standards and communication interaction standards, laying a foundation for ecosystem development.");
         ("pubDate", FDate 1749513600000);
         ("lang", FStr "en") ];
     raw_body := "## Standards Development Progress" |}.

(** src/content/news/tech-workshop-en.md, dated 2025-01-10. *)
Definition tech_workshop_en : RawDocument :=
  {| frontmatter :=
       [ ("title", FStr "First Technical Workshop Successfully Held");
         ("description", FStr "The UOS project team held its first technical workshop to discuss the core technical architecture and implementation of the human-cyber-physical convergence operating system.");
         ("pubDate", FDate 1736467200000);
         ("lang", FStr "en") ];
     raw_body := "## Workshop Overview" |}.

(** An entry that lacks its title. *)
Definition untitled : RawDocument :=
  {| frontmatter :=
       [ ("description", FStr "News description");
         ("pubDate", FDate 1704067200000);
         ("lang", FStr "zh") ];
     raw_body := "" |}.

(** An entry tagged with a language the site does not serve. *)
Definition french : RawDocument :=
  {| frontmatter :=
       [ ("title", FStr "News Title");
         ("description", FStr "News description");
         ("pubDate", FDate 1704067200000);
         ("lang", FStr "fr") ];
     raw_body := "" |}.

(** An entry without a language tag. *)
Definition untagged : RawDocument :=
  {| frontmatter :=
       [ ("title", FStr "News Title");
         ("description", FStr "News description");
         ("pubDate", FDate 1704067200000) ];
     raw_body := "" |}.

End Samples.

Import Js I18n Content.

(** Case analysis on the three required fields of a document. *)
Ltac required_fields d H :=
  unfold required_fields_ok, has_string, has_date in H;
  destruct (own (frontmatter d) "title") as [[t| | | |]|] eqn:Title;
  simpl in H; try discriminate H;
  destruct (own (frontmatter d) "description") as [[ds| | | |]|] eqn:Description;
  simpl in H; try discriminate H;
  destruct (own (frontmatter d) "pubDate") as [[|ms| | |]|] eqn:PubDate;
  simpl in H; try discriminate H.

(** * Facts *)

(** ** Strings, membership and splitting *)

Lemma mem_In k ks : mem k ks = true <-> In k ks.
Proof.
  unfold mem. rewrite existsb_exists. split.
  - intros [x [Hx E]]. apply String.eqb_eq in E. now subst.
  - intros H. exists k. split; [assumption | apply String.eqb_refl].
Qed.

Lemma mem_not_In k ks : mem k ks = false <-> ~ In k ks.
Proof.
  rewrite <- mem_In. destruct (mem k ks); intuition congruence.
Qed.

Lemma split_not_nil sep s : split sep s <> [].
Proof.
  destruct s as [|c s]; simpl; [discriminate|].
  destruct (Ascii.eqb c sep); [discriminate|].
  destruct (split sep s); discriminate.
Qed.

(** Splitting after a separator-free prefix peels that prefix off. *)
Lemma split_segment sep seg rest :
  includes sep seg = false ->
  split sep (seg ++ String sep rest) = seg :: split sep rest.
Proof.
  induction seg as [|c seg IH]; simpl; intros H.
  - now rewrite Ascii.eqb_refl.
  - apply orb_false_iff in H. destruct H as [Hc Hs].
    rewrite Hc, (IH Hs). reflexivity.
Qed.

Lemma split_last_segment sep seg :
  includes sep seg = false -> split sep seg = [seg].
Proof.
  induction seg as [|c seg IH]; simpl; intros H; [reflexivity|].
  apply orb_false_iff in H. destruct H as [Hc Hs].
  rewrite Hc, (IH Hs). reflexivity.
Qed.


(** ** Locale resolution *)

(** The resolved language is never [undefined]. *)
Lemma getLangFromUrl_defined url : exists l, getLangFromUrl url = Some l.
Proof.
  unfold getLangFromUrl.
  destruct (nth_error (split "/" (pathname url)) 1) as [seg|]; simpl.
  - destruct (has_property ui_keys seg); eauto.
  - eauto.
Qed.

(** A supported code in position 1 is the result. *)
Lemma getLangFromUrl_supported url seg :
  nth_error (split "/" (pathname url)) 1 = Some seg ->
  In seg supported ->
  getLangFromUrl url = Some seg.
Proof.
  intros E H. unfold getLangFromUrl. rewrite E. simpl to_property_key.
  unfold has_property.
  assert (M : mem seg ui_keys = true) by (apply mem_In; exact H).
  now rewrite M.
Qed.

(** A segment that is no property name of [ui], own or inherited, gives
    the default language. *)
Lemma getLangFromUrl_other url seg :
  nth_error (split "/" (pathname url)) 1 = Some seg ->
  ~ In seg supported ->
  ~ In seg object_prototype_keys ->
  getLangFromUrl url = Some (code defaultLang).
Proof.
  intros E H1 H2. unfold getLangFromUrl. rewrite E. simpl to_property_key.
  unfold has_property.
  assert (M1 : mem seg ui_keys = false) by (apply mem_not_In; exact H1).
  assert (M2 : mem seg object_prototype_keys = false) by (apply mem_not_In; exact H2).
  now rewrite M1, M2.
Qed.

(** C2, as the specification words it, fails on the code: in
    "//en/about" the first non-empty segment is the supported code "en",
    yet the code reads the empty segment in position 1 and answers the
    default language. *)
Lemma getLangFromUrl_skips_no_empty_segment :
  Spec.resolveLanguage "//en/about" supported (code defaultLang) = "en" /\
  getLangFromUrl {| pathname := "//en/about" |} = Some "zh".
Proof. split; reflexivity. Qed.

(** C2 (amended): [getLangFromUrl] inspects the segment right after the
    leading '/' (element 1 of the pathname split on '/'), empty or not.
    If that segment is a supported language code, it is the result; if
    there is no such segment, or it is neither a supported code nor a
    property name inherited from Object.prototype, the result is the
    default language.  With {zh, en} and default zh: "/en/about" gives
    "en"; "/about", "/" and "/fr/about" give "zh". *)
Theorem getLangFromUrl_position_one :
  forall url,
    (forall seg,
        nth_error (split "/" (pathname url)) 1 = Some seg ->
        In seg supported ->
        getLangFromUrl url = Some seg) /\
    (forall seg,
        nth_error (split "/" (pathname url)) 1 = Some seg ->
        ~ In seg supported ->
        ~ In seg object_prototype_keys ->
        getLangFromUrl url = Some (code defaultLang)) /\
    (nth_error (split "/" (pathname url)) 1 = None ->
     getLangFromUrl url = Some (code defaultLang)) /\
    getLangFromUrl {| pathname := "/en/about" |} = Some "en" /\
    getLangFromUrl {| pathname := "/about" |} = Some "zh" /\
    getLangFromUrl {| pathname := "/" |} = Some "zh" /\
    getLangFromUrl {| pathname := "/fr/about" |} = Some "zh".
Proof.
  intros url. repeat split.
  - intros seg. apply getLangFromUrl_supported.
  - intros seg. apply getLangFromUrl_other.
  - intros E. unfold getLangFromUrl. now rewrite E.
Qed.

Lemma getLangFromUrl_position_one_witness :
  getLangFromUrl {| pathname := "/en/news/launch" |} = Some "en" /\
  getLangFromUrl {| pathname := "/team" |} = Some (code defaultLang) /\
  getLangFromUrl {| pathname := "" |} = Some (code defaultLang).
Proof.
  split; [|split].
  - apply (proj1 (getLangFromUrl_position_one {| pathname := "/en/news/launch" |}) "en").
    + reflexivity.
    + simpl. auto.
  - apply (proj1 (proj2 (getLangFromUrl_position_one {| pathname := "/team" |})) "team").
    + reflexivity.
    + apply mem_not_In. reflexivity.
    + apply mem_not_In. reflexivity.
  - apply (proj1 (proj2 (proj2 (getLangFromUrl_position_one {| pathname := "" |})))).
    reflexivity.
Defined.

(** C3: the result of [getLangFromUrl] is meant to be a supported language
    code for every path.  It is always defined, but at "/toString/about"
    the inherited property name "toString" passes the [in] test and is
    returned, although it is no supported code. *)
Theorem getLangFromUrl_inherited_name :
  getLangFromUrl {| pathname := "/toString/about" |} = Some "toString" /\
  ~ In "toString" supported /\
  In "toString" object_prototype_keys /\
  (forall url, exists l, getLangFromUrl url = Some l).
Proof.
  split; [reflexivity|]. split; [|split].
  - apply mem_not_In. reflexivity.
  - apply mem_In. reflexivity.
  - exact getLangFromUrl_defined.
Qed.

(** C10: the resolved language depends on element 1 of the pathname split
    on '/' and on nothing else: two URLs that agree there resolve alike,
    and whatever follows the first segment of "/seg/..." is ignored. *)
Theorem getLangFromUrl_ignores_trailing_segments :
  (forall u1 u2,
      nth_error (split "/" (pathname u1)) 1 =
      nth_error (split "/" (pathname u2)) 1 ->
      getLangFromUrl u1 = getLangFromUrl u2) /\
  (forall seg rest1 rest2,
      includes "/" seg = false ->
      getLangFromUrl {| pathname := "/" ++ seg ++ "/" ++ rest1 |} =
      getLangFromUrl {| pathname := "/" ++ seg ++ "/" ++ rest2 |}) /\
  (forall seg rest,
      includes "/" seg = false ->
      getLangFromUrl {| pathname := "/" ++ seg ++ "/" ++ rest |} =
      getLangFromUrl {| pathname := "/" ++ seg |}).
Proof.
  assert (P : forall seg rest, includes "/" seg = false ->
             nth_error (split "/" (pathname {| pathname := "/" ++ seg ++ "/" ++ rest |})) 1
             = Some seg).
  { intros seg rest H. simpl.
    change (seg ++ String "/" rest) with (seg ++ String "/"%char rest).
    now rewrite (split_segment "/" seg rest H). }
  assert (Q : forall seg, includes "/" seg = false ->
             nth_error (split "/" (pathname {| pathname := "/" ++ seg |})) 1 = Some seg).
  { intros seg H. simpl. now rewrite (split_last_segment "/" seg H). }
  split; [|split].
  - intros u1 u2 E. unfold getLangFromUrl. now rewrite E.
  - intros seg rest1 rest2 H. unfold getLangFromUrl.
    now rewrite (P seg rest1 H), (P seg rest2 H).
  - intros seg rest H. unfold getLangFromUrl.
    now rewrite (P seg rest H), (Q seg H).
Qed.

Lemma getLangFromUrl_ignores_trailing_segments_witness :
  getLangFromUrl {| pathname := "/en/about" |} =
  getLangFromUrl {| pathname := "/en/news/project-launch" |} /\
  getLangFromUrl {| pathname := "/" ++ "en" ++ "/" ++ "team" |} =
  getLangFromUrl {| pathname := "/" ++ "en" |}.
Proof.
  split.
  - apply (proj1 getLangFromUrl_ignores_trailing_segments). reflexivity.
  - apply (proj2 (proj2 getLangFromUrl_ignores_trailing_segments)). reflexivity.
Defined.

(** ** Translation lookup *)

Lemma get_own o key s : own o key = Some s -> get o key = Str s.
Proof. intros E. unfold get. now rewrite E. Qed.

Lemma get_absent o key :
  own o key = None -> ~ In key object_prototype_keys -> get o key = Undefined.
Proof.
  intros E H. unfold get. rewrite E.
  apply mem_not_In in H. now rewrite H.
Qed.

Lemma truthy_Str s : s <> "" -> truthy (Str s) = true.
Proof.
  intros H. simpl. apply negb_true_iff. now apply String.eqb_neq.
Qed.

Lemma logical_or_falsy a b : truthy a = false -> logical_or a b = b.
Proof. intros H. unfold logical_or. now rewrite H. Qed.

Lemma logical_or_truthy a b : truthy a = true -> logical_or a b = a.
Proof. intros H. unfold logical_or. now rewrite H. Qed.

Lemma all_non_empty_own o key s :
  all_non_empty o = true -> own o key = Some s -> s <> "".
Proof.
  unfold all_non_empty. induction o as [|[k v] o IH]; simpl; intros H E.
  - discriminate.
  - apply andb_true_iff in H. destruct H as [Hv Ho].
    destruct (String.eqb k key).
    + injection E as <-. apply String.eqb_neq. now apply negb_true_iff.
    + now apply IH.
Qed.

(** Every string registered in [ui] is non-empty. *)
Lemma ui_non_empty lang : all_non_empty (table_of ui lang) = true.
Proof. destruct lang; vm_compute; reflexivity. Qed.

Lemma own_keys {A} (o : list (string * A)) key :
  In key (keys o) <-> exists v, own o key = Some v.
Proof.
  induction o as [|[k v] o IH]; simpl.
  - split; [tauto | intros [v E]; discriminate].
  - destruct (String.eqb k key) eqn:K.
    + apply String.eqb_eq in K. split; eauto.
    + apply String.eqb_neq in K. rewrite IH. split.
      * intros [F|H]; [contradiction | exact H].
      * intros H. now right.
Qed.

(** C1, as stated, fails on the code: a key absent from both tables gives
    [undefined]; nothing is raised. *)
Lemma useTranslations_missing_key_undefined :
  own (table_of ui en) "nav.search" = None /\
  own (table_of ui defaultLang) "nav.search" = None /\
  useTranslations en "nav.search" = Undefined.
Proof. repeat split. Qed.

(** C1 (amended): for every language of the table and every key that is no
    property name inherited from Object.prototype, [t(key)] is the string
    registered for (lang, key) when it is present and non-empty, as every
    string of [ui] is; otherwise it is the string registered for
    (defaultLang, key) when present; and when the key is absent from both
    tables it is [undefined]: no error is raised. *)
Theorem useTranslations_two_tier :
  forall (u : tables) (lang : Lang) (key : string),
    ~ In key object_prototype_keys ->
    (forall s, own (table_of u lang) key = Some s -> s <> "" ->
               useTranslations_on u lang key = Str s) /\
    (forall d, (own (table_of u lang) key = None \/
                own (table_of u lang) key = Some "") ->
               own (table_of u defaultLang) key = Some d ->
               useTranslations_on u lang key = Str d) /\
    ((own (table_of u lang) key = None \/ own (table_of u lang) key = Some "") ->
     own (table_of u defaultLang) key = None ->
     useTranslations_on u lang key = Undefined) /\
    (forall s, own (table_of ui lang) key = Some s ->
               useTranslations lang key = Str s).
Proof.
  intros u lang key NP.
  assert (F : forall w, own (table_of w lang) key = None \/
                        own (table_of w lang) key = Some "" ->
                        truthy (get (table_of w lang) key) = false).
  { intros w [E|E].
    - now rewrite (get_absent _ _ E NP).
    - now rewrite (get_own _ _ _ E). }
  split; [|split; [|split]].
  - intros s E Hs. unfold useTranslations_on.
    rewrite (get_own _ _ _ E). apply logical_or_truthy. now apply truthy_Str.
  - intros d El Ed. unfold useTranslations_on.
    rewrite (logical_or_falsy _ _ (F u El)). now apply get_own.
  - intros El Ed. unfold useTranslations_on.
    rewrite (logical_or_falsy _ _ (F u El)). now apply get_absent.
  - intros s E. unfold useTranslations, useTranslations_on.
    rewrite (get_own _ _ _ E). apply logical_or_truthy. apply truthy_Str.
    exact (all_non_empty_own _ _ _ (ui_non_empty lang) E).
Qed.

Lemma useTranslations_two_tier_witness :
  useTranslations_on ui en "nav.home" = Str "Home" /\
  useTranslations_on
    {| zh_table := [("nav.home", "首页")]; en_table := [] |} en "nav.home"
  = Str "首页" /\
  useTranslations_on ui en "nav.search" = Undefined /\
  useTranslations zh "news.back" = Str "返回新闻列表".
Proof.
  assert (N1 : ~ In "nav.home" object_prototype_keys)
    by (apply mem_not_In; reflexivity).
  assert (N2 : ~ In "nav.search" object_prototype_keys)
    by (apply mem_not_In; reflexivity).
  assert (N3 : ~ In "news.back" object_prototype_keys)
    by (apply mem_not_In; reflexivity).
  split; [|split; [|split]].
  - apply (proj1 (useTranslations_two_tier ui en "nav.home" N1)).
    + reflexivity.
    + discriminate.
  - apply (proj1 (proj2 (useTranslations_two_tier
               {| zh_table := [("nav.home", "首页")]; en_table := [] |}
               en "nav.home" N1))).
    + left. reflexivity.
    + reflexivity.
  - apply (proj1 (proj2 (proj2 (useTranslations_two_tier ui en "nav.search" N2)))).
    + left. reflexivity.
    + reflexivity.
  - apply (proj2 (proj2 (proj2 (useTranslations_two_tier ui zh "news.back" N3)))).
    reflexivity.
Defined.

(** C9: [t] falls back to the default language's entry whenever the value
    read for the requested language is falsy, the empty string included;
    so when the default table registers a non-empty string for a key, [t]
    returns neither the empty string nor [undefined] for it, in any
    language; and on [ui] every key of the default table yields a
    non-empty string. *)
Theorem useTranslations_falsy_fallback :
  forall (u : tables) (lang : Lang) (key : string),
    (truthy (get (table_of u lang) key) = false ->
     useTranslations_on u lang key = get (table_of u defaultLang) key) /\
    (own (table_of u lang) key = Some "" ->
     useTranslations_on u lang key = get (table_of u defaultLang) key) /\
    (forall d, own (table_of u defaultLang) key = Some d -> d <> "" ->
               useTranslations_on u lang key <> Str "" /\
               useTranslations_on u lang key <> Undefined) /\
    (In key (keys (table_of ui defaultLang)) ->
     exists s, useTranslations lang key = Str s /\ s <> "").
Proof.
  intros u lang key.
  assert (T : forall w d, own (table_of w defaultLang) key = Some d -> d <> "" ->
              truthy (useTranslations_on w lang key) = true).
  { intros w d Ed Hd. unfold useTranslations_on, logical_or.
    destruct (truthy (get (table_of w lang) key)) eqn:Tl; [exact Tl|].
    rewrite (get_own _ _ _ Ed). now apply truthy_Str. }
  split; [|split; [|split]].
  - intros H. now apply logical_or_falsy.
  - intros E. apply logical_or_falsy. now rewrite (get_own _ _ _ E).
  - intros d Ed Hd. pose proof (T u d Ed Hd) as H.
    split; intros C; rewrite C in H; discriminate.
  - intros Hk. apply own_keys in Hk. destruct Hk as [d Ed].
    pose proof (all_non_empty_own _ _ _ (ui_non_empty defaultLang) Ed) as Hd.
    pose proof (T ui d Ed Hd) as H.
    unfold useTranslations. unfold useTranslations_on, logical_or in *.
    destruct (truthy (get (table_of ui lang) key)) eqn:Tl.
    + unfold get in *. destruct (own (table_of ui lang) key) as [s|] eqn:El.
      * exists s. split; [reflexivity|].
        exact (all_non_empty_own _ _ _ (ui_non_empty lang) El).
      * exfalso. clear - El Ed.
        assert (K0 : In key (keys (table_of ui defaultLang)))
          by (apply own_keys; eauto).
        assert (K : In key (keys (table_of ui lang))).
        { destruct lang; exact K0. }
        apply own_keys in K. destruct K as [v Ev]. congruence.
    + rewrite (get_own _ _ _ Ed). now exists d.
Qed.

Lemma useTranslations_falsy_fallback_witness :
  useTranslations_on
    {| zh_table := [("nav.home", "首页")]; en_table := [("nav.home", "")] |}
    en "nav.home"
  = get (table_of {| zh_table := [("nav.home", "首页")];
                     en_table := [("nav.home", "")] |} defaultLang) "nav.home" /\
  useTranslations_on ui en "contact.phone" <> Str "" /\
  (exists s, useTranslations en "contact.phone" = Str s /\ s <> "").
Proof.
  split; [|split].
  - apply (proj1 (proj2 (useTranslations_falsy_fallback
               {| zh_table := [("nav.home", "首页")];
                  en_table := [("nav.home", "")] |} en "nav.home"))).
    reflexivity.
  - apply (proj1 (proj2 (proj2 (useTranslations_falsy_fallback
               ui en "contact.phone"))) "电话").
    + reflexivity.
    + discriminate.
  - apply (proj2 (proj2 (proj2 (useTranslations_falsy_fallback
               ui en "contact.phone")))).
    apply mem_In. reflexivity.
Defined.

(** C8: the default language is one of the supported languages, in
    [languages] as in the [i18n] block of the site configuration; every
    key of the default language's table is a key of every language's
    table; and were a key absent from a table other than the default one,
    the lookup would still give the default language's string. *)
Theorem locale_table_invariant :
  In (code defaultLang) supported /\
  In i18n_defaultLocale i18n_locales /\
  (forall lang, In (code lang) supported) /\
  (forall lang key,
      In key (keys (table_of ui defaultLang)) ->
      In key (keys (table_of ui lang))) /\
  (forall (u : tables) lang key d,
      own (table_of u defaultLang) key = Some d ->
      own (table_of u lang) key = None ->
      useTranslations_on u lang key <> Undefined /\
      (~ In key object_prototype_keys -> useTranslations_on u lang key = Str d)).
Proof.
  split; [|split; [|split; [|split]]].
  - apply mem_In. reflexivity.
  - apply mem_In. reflexivity.
  - intros lang. apply mem_In. destruct lang; reflexivity.
  - intros lang key H. destruct lang; exact H.
  - intros u lang key d Ed El. unfold useTranslations_on, get.
    rewrite El, Ed.
    destruct (mem key object_prototype_keys) eqn:M.
    + split; [discriminate|]. intros N. apply mem_not_In in N. congruence.
    + split; [|reflexivity]. unfold logical_or. simpl. discriminate.
Qed.

Lemma locale_table_invariant_witness :
  In "news.back" (keys (table_of ui en)) /\
  useTranslations_on
    {| zh_table := [("nav.home", "首页")]; en_table := [] |} en "nav.home"
  <> Undefined.
Proof.
  split.
  - apply (proj1 (proj2 (proj2 (proj2 locale_table_invariant))) en "news.back").
    apply mem_In. reflexivity.
  - apply (proj2 (proj2 (proj2 (proj2 locale_table_invariant)))
             {| zh_table := [("nav.home", "首页")]; en_table := [] |}
             en "nav.home" "首页"); reflexivity.
Defined.

(** ** Validation of one document *)

Section Validation.
Variable s : z_object.

(** An accepted front-matter block fails no declared constraint. *)
Lemma parse_inl_checks front :
  forall d, parse s front = inl d ->
  forall k z, In (k, z) s -> check z (own front k) = None.
Proof.
  induction s as [|[k0 z0] s' IH]; simpl; intros d E k z H.
  - contradiction.
  - destruct (check z0 (own front k0)) eqn:C; [discriminate|].
    destruct (parse s' front) as [d'|e] eqn:P; [|discriminate].
    destruct H as [H|H].
    + now injection H as <- <-.
    + exact (IH d' eq_refl k z H).
Qed.

(** A rejected block is rejected for a declared field whose constraint
    fails. *)
Lemma parse_inr_check front f w :
  parse s front = inr (f, w) ->
  exists z, In (f, z) s /\ check z (own front f) = Some w.
Proof.
  induction s as [|[k0 z0] s' IH]; simpl; intros E.
  - discriminate.
  - destruct (check z0 (own front k0)) eqn:C.
    + injection E as <- <-. exists z0. auto.
    + destruct (parse s' front) as [d'|e] eqn:P; [discriminate|].
      destruct (IH E) as [z [H1 H2]]. exists z. auto.
Qed.

(** The fields of an accepted block: the declared ones, with the values
    the front matter gives them. *)
Lemma parse_inl_fields front :
  forall d, parse s front = inl d ->
  forall f, own d f = if mem f (keys s) then own front f else None.
Proof.
  induction s as [|[k0 z0] s' IH]; simpl; intros d E f.
  - now injection E as <-.
  - destruct (check z0 (own front k0)) eqn:C; [discriminate|].
    destruct (parse s' front) as [d'|e] eqn:P; [|discriminate].
    injection E as <-. specialize (IH d' eq_refl f).
    unfold mem in *. simpl.
    destruct (String.eqb f k0) eqn:K.
    + apply String.eqb_eq in K. subst k0. simpl.
      destruct (own front f) as [v|] eqn:V.
      * simpl. now rewrite String.eqb_refl.
      * rewrite IH. now destruct (existsb (String.eqb f) (keys s')).
    + simpl. rewrite String.eqb_sym in K.
      destruct (own front k0) as [v|]; simpl; [rewrite K|]; exact IH.
Qed.

Lemma offends_iff d f :
  offends s d f = true <->
  exists z w, In (f, z) s /\ check z (own (frontmatter d) f) = Some w.
Proof.
  unfold offends. rewrite existsb_exists. split.
  - intros [[k z] [H1 H2]]. simpl in H2. apply andb_true_iff in H2.
    destruct H2 as [K C]. apply String.eqb_eq in K. subst k.
    destruct (check z (own (frontmatter d) f)) as [w|] eqn:E; [|discriminate].
    eauto.
  - intros [z [w [H1 H2]]]. exists (f, z). split; [exact H1|]. simpl.
    now rewrite String.eqb_refl, H2.
Qed.

(** A document is rejected exactly when some field offends. *)
Lemma accepted_false_iff d :
  accepted s d = false <-> exists f, offends s d f = true.
Proof.
  unfold accepted, validate. split.
  - destruct (parse s (frontmatter d)) as [x|[f w]] eqn:P; [discriminate|].
    intros _. exists f. apply offends_iff.
    destruct (parse_inr_check _ _ _ P) as [z [H1 H2]]. eauto.
  - intros [f H]. apply offends_iff in H. destruct H as [z [w [H1 H2]]].
    destruct (parse s (frontmatter d)) as [x|e] eqn:P; [|reflexivity].
    rewrite (parse_inl_checks _ _ P _ _ H1) in H2. discriminate.
Qed.

Lemma validate_inr_offends d f w :
  validate s d = inr (f, w) -> offends s d f = true.
Proof.
  unfold validate. destruct (parse s (frontmatter d)) as [x|e] eqn:P; [discriminate|].
  intros E. injection E as ->. apply offends_iff.
  destruct (parse_inr_check _ _ _ P) as [z [H1 H2]]. eauto.
Qed.

Lemma validate_inl_fields d r :
  validate s d = inl r ->
  (forall f, In f (keys s) -> own (data r) f = own (frontmatter d) f) /\
  (forall f v, own (data r) f = Some v -> own (frontmatter d) f = Some v) /\
  body r = raw_body d.
Proof.
  unfold validate. destruct (parse s (frontmatter d)) as [x|e] eqn:P; [|discriminate].
  intros E. injection E as <-. simpl.
  pose proof (parse_inl_fields _ _ P) as F.
  split; [|split; [|reflexivity]].
  - intros f H. rewrite F. apply mem_In in H. now rewrite H.
  - intros f v. rewrite F. destruct (mem f (keys s)); [tauto | discriminate].
Qed.

End Validation.

(** ** Loading a collection *)

Section Loading.
Variable name : string.
Variable s : z_object.

Lemma load_from_records raw :
  forall i, records (load_from i name s raw) = flat_map (record_of s) raw.
Proof.
  induction raw as [|d raw IH]; intros i; simpl; [reflexivity|].
  unfold record_of at 1.
  destruct (validate s d) as [r|[f w]]; simpl; now rewrite IH.
Qed.

Lemma load_from_length raw :
  forall i,
    length (records (load_from i name s raw)) +
    length (errors (load_from i name s raw)) = length raw.
Proof.
  induction raw as [|d raw IH]; intros i; simpl; [reflexivity|].
  specialize (IH (S i)).
  destruct (validate s d) as [r|[f w]]; simpl; lia.
Qed.

(** Errors carry the position of their document. *)
Lemma load_from_positions raw :
  forall i e, In e (errors (load_from i name s raw)) -> i <= document e.
Proof.
  induction raw as [|d raw IH]; intros i e; simpl; [contradiction|].
  destruct (validate s d) as [r|[f w]]; simpl.
  - intros H. apply IH in H. lia.
  - intros [<-|H]; simpl; [lia|]. apply IH in H. lia.
Qed.

Lemma errors_of_earlier raw i j :
  j < i -> errors_of j (errors (load_from i name s raw)) = [].
Proof.
  intros L. unfold errors_of.
  destruct (filter _ _) as [|e es] eqn:F; [reflexivity|].
  assert (H : In e (e :: es)) by (left; reflexivity).
  rewrite <- F in H. apply filter_In in H. destruct H as [H1 H2].
  apply load_from_positions in H1. apply Nat.eqb_eq in H2. lia.
Qed.

(** The errors reported for one position: none for an accepted document,
    one for a rejected document. *)
Lemma errors_of_position raw :
  forall i n d,
    nth_error raw n = Some d ->
    errors_of (i + n) (errors (load_from i name s raw)) =
    match validate s d with
    | inl _ => []
    | inr (f, w) =>
        [ {| in_collection := name; document := i + n; field := f; why := w |} ]
    end.
Proof.
  induction raw as [|d0 raw IH]; intros i n d E.
  - destruct n; discriminate.
  - destruct n as [|n]; simpl in E.
    + injection E as ->. rewrite Nat.add_0_r. simpl.
      destruct (validate s d) as [r|[f w]]; simpl.
      * apply errors_of_earlier. lia.
      * unfold errors_of. simpl. rewrite Nat.eqb_refl. f_equal.
        apply (errors_of_earlier raw (S i) i). lia.
    + replace (i + S n) with (S i + n) by lia.
      specialize (IH (S i) n d E). simpl load_from.
      destruct (validate s d0) as [r|[f w]]; simpl errors.
      * exact IH.
      * unfold errors_of in *. simpl filter.
        assert (N : Nat.eqb i (S (i + n)) = false) by (apply Nat.eqb_neq; lia).
        rewrite N. exact IH.
Qed.

Lemma record_of_accepted d :
  accepted s d = true -> exists r, validate s d = inl r /\ record_of s d = [r].
Proof.
  unfold accepted, record_of. destruct (validate s d) as [r|e]; [|discriminate].
  eauto.
Qed.

Lemma record_of_rejected d :
  accepted s d = false ->
  record_of s d = [] /\ exists f w, validate s d = inr (f, w).
Proof.
  unfold accepted, record_of. destruct (validate s d) as [r|[f w]]; [discriminate|].
  eauto.
Qed.

(** The records are those of the accepted documents, in their order. *)
Lemma records_in_order raw :
  Forall2 (fun d r => validate s d = inl r)
          (filter (accepted s) raw) (flat_map (record_of s) raw).
Proof.
  induction raw as [|d raw IH]; simpl; [constructor|].
  destruct (accepted s d) eqn:A.
  - destruct (record_of_accepted d A) as [r [V ->]]. simpl. now constructor.
  - destruct (record_of_rejected d A) as [-> _]. exact IH.
Qed.

Lemma filter_all {A} (p : A -> bool) l : forallb p l = true -> filter p l = l.
Proof.
  induction l as [|x l IH]; simpl; [reflexivity|].
  intros H. apply andb_true_iff in H. destruct H as [-> H]. now rewrite IH.
Qed.

End Loading.

(** ** The collections of the site *)

(** [title], [description] and [pubDate] are required by every schema. *)
Lemma required_fields_offend c d :
  In c [news; docs; newsCollection] ->
  (has_string d "title" = false -> offends (schema c) d "title" = true) /\
  (has_string d "description" = false -> offends (schema c) d "description" = true) /\
  (has_date d "pubDate" = false -> offends (schema c) d "pubDate" = true).
Proof.
  intros H. unfold has_string, has_date, offends.
  destruct H as [<-|[<-|[<-|[]]]]; simpl;
    (split; [|split]); intros E;
    match goal with
    | E : match own ?o ?k with _ => _ end = false |- _ =>
        destruct (own o k) as [[| | | |]|]; simpl; congruence
    end.
Qed.

Lemma declared_fields c f :
  In c [news; docs; newsCollection] ->
  In f ["title"; "description"; "pubDate"; "lang"] ->
  In f (keys (schema c)).
Proof.
  intros H F. apply mem_In.
  destruct H as [<-|[<-|[<-|[]]]];
    destruct F as [<-|[<-|[<-|[<-|[]]]]]; reflexivity.
Qed.

(** C5: every document is validated on its own.  A document in which a
    declared field offends (for the schemas of the site: a missing or
    ill-typed [title], [description] or [pubDate]) gives no record and
    exactly one [ValidationError], which names an offending field, the
    offending field when there is just one; every other document of the
    batch is accepted and its record returned. *)
Theorem loadCollection_fails_documents_singly :
  forall name s raw,
    (forall i d,
        nth_error raw i = Some d -> accepted s d = false ->
        record_of s d = [] /\
        exists f w,
          offends s d f = true /\
          errors_of i (errors (loadCollection name s raw)) =
          [ {| in_collection := name; document := i; field := f; why := w |} ]) /\
    (forall i d f,
        nth_error raw i = Some d -> offends s d f = true ->
        (forall g, offends s d g = true -> g = f) ->
        exists w,
          errors_of i (errors (loadCollection name s raw)) =
          [ {| in_collection := name; document := i; field := f; why := w |} ]) /\
    (forall i d,
        nth_error raw i = Some d -> accepted s d = true ->
        errors_of i (errors (loadCollection name s raw)) = [] /\
        exists r, validate s d = inl r /\
                  In r (records (loadCollection name s raw))) /\
    records (loadCollection name s raw) = flat_map (record_of s) raw /\
    length (records (loadCollection name s raw)) +
    length (errors (loadCollection name s raw)) = length raw /\
    (forall d f, offends s d f = true -> accepted s d = false) /\
    (forall c d,
        In c [news; docs; newsCollection] ->
        (has_string d "title" = false -> offends (schema c) d "title" = true) /\
        (has_string d "description" = false ->
         offends (schema c) d "description" = true) /\
        (has_date d "pubDate" = false -> offends (schema c) d "pubDate" = true)).
Proof.
  intros name s raw. unfold loadCollection.
  assert (R : forall i d, nth_error raw i = Some d -> accepted s d = false ->
              record_of s d = [] /\
              exists f w,
                offends s d f = true /\
                errors_of i (errors (load_from 0 name s raw)) =
                [ {| in_collection := name; document := i; field := f; why := w |} ]).
  { intros i d E A. destruct (record_of_rejected s d A) as [N [f [w V]]].
    split; [exact N|]. exists f, w. split.
    - exact (validate_inr_offends s d f w V).
    - pose proof (errors_of_position name s raw 0 i d E) as P.
      simpl in P. now rewrite V in P. }
  split; [exact R|]. split; [|split; [|split; [|split; [|split]]]].
  - intros i d f E O U.
    assert (A : accepted s d = false) by (apply accepted_false_iff; eauto).
    destruct (R i d E A) as [_ [g [w [Og Eg]]]].
    rewrite (U g Og) in Eg. eauto.
  - intros i d E A. destruct (record_of_accepted s d A) as [r [V Rd]].
    split.
    + pose proof (errors_of_position name s raw 0 i d E) as P.
      simpl in P. now rewrite V in P.
    + exists r. split; [exact V|]. rewrite load_from_records.
      apply in_flat_map. exists d. split.
      * exact (nth_error_In raw i E).
      * rewrite Rd. now left.
  - apply load_from_records.
  - apply load_from_length.
  - intros d f O. apply accepted_false_iff. eauto.
  - intros c d. apply required_fields_offend.
Qed.

Lemma loadCollection_fails_documents_singly_witness :
  (exists w,
      errors_of 1
        (errors (loadCollection "news" (schema news)
                   [Samples.project_launch_en; Samples.untitled;
                    Samples.tech_workshop_en])) =
      [ {| in_collection := "news"; document := 1; field := "title"; why := w |} ]) /\
  (exists r,
      validate (schema news) Samples.tech_workshop_en = inl r /\
      In r (records (loadCollection "news" (schema news)
                       [Samples.project_launch_en; Samples.untitled;
                        Samples.tech_workshop_en]))).
Proof.
  pose proof (loadCollection_fails_documents_singly "news" (schema news)
                [Samples.project_launch_en; Samples.untitled;
                 Samples.tech_workshop_en]) as T.
  split.
  - apply (proj1 (proj2 T) 1 Samples.untitled "title").
    + reflexivity.
    + reflexivity.
    + intros g O. apply offends_iff in O. destruct O as [z [w [I C]]].
      simpl in I.
      destruct I as [I|[I|[I|[I|[]]]]]; injection I as <- <-;
        [reflexivity | discriminate C | discriminate C | discriminate C].
  - apply (proj1 (proj2 (proj2 T)) 2 Samples.tech_workshop_en).
    + reflexivity.
    + reflexivity.
Defined.

(** C6: the records come out in discovery order: they are the records of
    the accepted documents, one by one in the order of the batch, and of
    all the documents when every one is accepted; the same batch gives
    the same result; nothing is sorted by date, as the three news entries
    loaded out of date order show. *)
Theorem loadCollection_keeps_discovery_order :
  forall name s raw,
    Forall2 (fun d r => validate s d = inl r)
            (filter (accepted s) raw)
            (records (loadCollection name s raw)) /\
    (forallb (accepted s) raw = true ->
     Forall2 (fun d r => validate s d = inl r)
             raw (records (loadCollection name s raw)) /\
     errors (loadCollection name s raw) = []) /\
    (forall raw', raw' = raw ->
                  loadCollection name s raw' = loadCollection name s raw) /\
    map (fun r => own (data r) "pubDate")
        (records (loadCollection "news" (schema news)
                    [Samples.standards_progress_en; Samples.project_launch_en;
                     Samples.tech_workshop_en])) =
    map (fun d => own (frontmatter d) "pubDate")
        [Samples.standards_progress_en; Samples.project_launch_en;
         Samples.tech_workshop_en].
Proof.
  intros name s raw. unfold loadCollection.
  assert (O : Forall2 (fun d r => validate s d = inl r)
                      (filter (accepted s) raw)
                      (records (load_from 0 name s raw))).
  { rewrite load_from_records. apply records_in_order. }
  split; [exact O|]. split; [|split].
  - intros A. rewrite (filter_all _ _ A) in O. split; [exact O|].
    pose proof (load_from_length name s raw 0) as L.
    apply Forall2_length in O.
    destruct (errors (load_from 0 name s raw)); [reflexivity|].
    simpl in L. lia.
  - intros raw' ->. reflexivity.
  - reflexivity.
Qed.

Lemma loadCollection_keeps_discovery_order_witness :
  Forall2 (fun d r => validate (schema news) d = inl r)
          [Samples.standards_progress_en; Samples.project_launch_en]
          (records (loadCollection "news" (schema news)
                      [Samples.standards_progress_en; Samples.project_launch_en])) /\
  errors (loadCollection "news" (schema news)
            [Samples.standards_progress_en; Samples.project_launch_en]) = [].
Proof.
  apply (proj1 (proj2 (loadCollection_keeps_discovery_order "news" (schema news)
                         [Samples.standards_progress_en; Samples.project_launch_en]))).
  reflexivity.
Defined.

(** C7: every document of the batch that validation accepts has its
    record in the output of [loadCollection], and in that record each
    declared field ([title], [description], [pubDate] and [lang] in the
    schemas of the site) has the value it has in the front matter, absent
    where it is absent; the record has no field value the front matter
    lacks, and the body is kept.  Conversely every record of the output
    is the record of an accepted document of the batch, with the same
    agreement. *)
Theorem loadCollection_round_trip :
  forall name s raw,
    (forall d,
        In d raw -> accepted s d = true ->
        exists r,
          validate s d = inl r /\
          In r (records (loadCollection name s raw)) /\
          (forall f, In f (keys s) -> own (data r) f = own (frontmatter d) f) /\
          (forall f v, own (data r) f = Some v -> own (frontmatter d) f = Some v) /\
          body r = raw_body d) /\
    (forall r,
        In r (records (loadCollection name s raw)) ->
        exists d,
          In d raw /\ accepted s d = true /\ validate s d = inl r /\
          (forall f, In f (keys s) -> own (data r) f = own (frontmatter d) f) /\
          (forall f v, own (data r) f = Some v -> own (frontmatter d) f = Some v) /\
          body r = raw_body d) /\
    (forall c f,
        In c [news; docs; newsCollection] ->
        In f ["title"; "description"; "pubDate"; "lang"] ->
        In f (keys (schema c))).
Proof.
  intros name s raw. unfold loadCollection. rewrite load_from_records.
  split; [|split; [|exact declared_fields]].
  - intros d Hd A. destruct (record_of_accepted s d A) as [r [V Rd]].
    exists r. split; [exact V|]. split.
    + apply in_flat_map. exists d. split; [exact Hd|]. rewrite Rd. now left.
    + exact (validate_inl_fields s d r V).
  - intros r H. apply in_flat_map in H. destruct H as [d [Hd Hr]].
    unfold record_of in Hr.
    destruct (validate s d) as [r'|e] eqn:V; [|contradiction].
    destruct Hr as [->|[]]. exists d. split; [exact Hd|]. split.
    + unfold accepted. now rewrite V.
    + split; [exact V|]. exact (validate_inl_fields s d r V).
Qed.

Lemma loadCollection_round_trip_witness :
  (exists r,
      validate (schema news) Samples.project_launch_en = inl r /\
      In r (records (loadCollection "news" (schema news)
                       [Samples.untitled; Samples.project_launch_en])) /\
      (forall f, In f (keys (schema news)) ->
                 own (data r) f = own (frontmatter Samples.project_launch_en) f) /\
      (forall f v, own (data r) f = Some v ->
                   own (frontmatter Samples.project_launch_en) f = Some v) /\
      body r = raw_body Samples.project_launch_en) /\
  (exists d,
      In d [Samples.untitled; Samples.project_launch_en] /\
      accepted (schema news) d = true /\
      validate (schema news) d =
      inl {| data := frontmatter Samples.project_launch_en;
             body := "## Official Project Launch" |} /\
      (forall f, In f (keys (schema news)) ->
                 own (frontmatter Samples.project_launch_en) f = own (frontmatter d) f) /\
      (forall f v, own (frontmatter Samples.project_launch_en) f = Some v ->
                   own (frontmatter d) f = Some v) /\
      "## Official Project Launch" = raw_body d).
Proof.
  pose proof (loadCollection_round_trip "news" (schema news)
                [Samples.untitled; Samples.project_launch_en]) as T.
  split.
  - apply (proj1 T Samples.project_launch_en).
    + right. left. reflexivity.
    + reflexivity.
  - apply (proj1 (proj2 T)
             {| data := frontmatter Samples.project_launch_en;
                body := "## Official Project Launch" |}).
    left. reflexivity.
Defined.

(** ** The language tag *)

(** C4, as stated, fails on src/content/config.ts: the entry tagged "fr"
    is accepted by the [news] schema, and its record carries the tag. *)
Lemma news_accepts_unsupported_lang :
  own (frontmatter Samples.french) "lang" = Some (FStr "fr") /\
  ~ In "fr" supported /\
  accepted (schema news) Samples.french = true /\
  map (fun r => own (data r) "lang")
      (records (loadCollection "news" (schema news) [Samples.french])) =
  [Some (FStr "fr")].
Proof.
  split; [reflexivity|]. split; [|split; reflexivity].
  apply mem_not_In. reflexivity.
Qed.

(** C4 (amended): for a document whose [title], [description] and
    [pubDate] are well-formed, the schemas of src/content/config.ts
    ([news], [docs]), where [lang] is an optional string, accept it when
    [lang] is omitted and when [lang] is any string, supported or not, and
    reject it, naming [lang], when [lang] is not a string; the schema
    [newsCollection], where [lang] is one of "zh" and "en", rejects it,
    naming [lang], when [lang] is a string outside the supported set and
    also when [lang] is omitted, and accepts it when [lang] is a supported
    code and [image] does not offend. *)
Theorem lang_constraint_by_schema :
  forall d,
    required_fields_ok d = true ->
    (forall c,
        In c [news; docs] ->
        (own (frontmatter d) "lang" = None -> accepted (schema c) d = true) /\
        (forall l, own (frontmatter d) "lang" = Some (FStr l) ->
                   accepted (schema c) d = true) /\
        (forall v, own (frontmatter d) "lang" = Some v ->
                   (forall l, v <> FStr l) ->
                   validate (schema c) d = inr ("lang", WrongType))) /\
    (forall l, own (frontmatter d) "lang" = Some (FStr l) ->
               ~ In l supported ->
               validate (schema newsCollection) d = inr ("lang", UnrecognizedValue)) /\
    (own (frontmatter d) "lang" = None ->
     validate (schema newsCollection) d = inr ("lang", MissingField)) /\
    (forall l, own (frontmatter d) "lang" = Some (FStr l) ->
               In l supported ->
               offends (schema newsCollection) d "image" = false ->
               accepted (schema newsCollection) d = true).
Proof.
  intros d H. required_fields d H.
  split; [|split; [|split]].
  - intros c Hc.
    assert (S : schema c = schema news)
      by (destruct Hc as [<-|[<-|[]]]; reflexivity).
    unfold accepted, validate. rewrite S. simpl.
    rewrite Title, Description, PubDate. simpl.
    split; [|split].
    + intros L. now rewrite L.
    + intros l L. now rewrite L.
    + intros v L N. rewrite L.
      destruct v as [l| | | |]; try reflexivity.
      now elim (N l).
  - intros l L N. apply mem_not_In in N.
    unfold validate. cbn -[mem]. rewrite Title, Description, PubDate, L.
    cbn -[mem]. change (mem l ["zh"; "en"]) with (mem l supported).
    now rewrite N.
  - intros L. unfold validate. simpl.
    now rewrite Title, Description, PubDate, L.
  - intros l L I O. apply mem_In in I.
    unfold offends in O. simpl in O. rewrite !orb_false_r in O.
    unfold accepted, validate. cbn -[mem].
    rewrite Title, Description, PubDate, L. cbn -[mem].
    change (mem l ["zh"; "en"]) with (mem l supported). rewrite I.
    destruct (own (frontmatter d) "image") as [[| | | |]|]; simpl in *;
      congruence.
Qed.

Lemma lang_constraint_by_schema_witness :
  accepted (schema news) Samples.untagged = true /\
  accepted (schema docs) Samples.french = true /\
  validate (schema newsCollection) Samples.french = inr ("lang", UnrecognizedValue) /\
  validate (schema newsCollection) Samples.untagged = inr ("lang", MissingField) /\
  accepted (schema newsCollection) Samples.tech_workshop_en = true.
Proof.
  pose proof (lang_constraint_by_schema Samples.untagged eq_refl) as U.
  pose proof (lang_constraint_by_schema Samples.french eq_refl) as F.
  pose proof (lang_constraint_by_schema Samples.tech_workshop_en eq_refl) as W.
  split; [|split; [|split; [|split]]].
  - apply (proj1 (proj1 U news (or_introl eq_refl))). reflexivity.
  - apply (proj1 (proj2 (proj1 F docs (or_intror (or_introl eq_refl)))) "fr").
    reflexivity.
  - apply (proj1 (proj2 F) "fr").
    + reflexivity.
    + apply mem_not_In. reflexivity.
  - apply (proj1 (proj2 (proj2 U))). reflexivity.
  - apply (proj2 (proj2 (proj2 W)) "en").
    + reflexivity.
    + apply mem_In. reflexivity.
    + reflexivity.
Defined.

(** * Further facts *)

(** ** Splitting a pathname *)

(** The head of a split and what follows it. *)
Lemma split_inv sep s :
  forall seg segs,
    split sep s = seg :: segs ->
    includes sep seg = false /\
    ((segs = [] /\ s = seg) \/
     (exists rest, s = seg ++ String sep rest /\ segs = split sep rest)).
Proof.
  induction s as [|c r IH]; simpl; intros seg segs E.
  - injection E as <- <-. split; [reflexivity | now left].
  - destruct (Ascii.eqb c sep) eqn:C.
    + injection E as <- <-. apply Ascii.eqb_eq in C. subst c.
      split; [reflexivity|]. right. exists r. split; reflexivity.
    + destruct (split sep r) as [|seg' segs'] eqn:R.
      * now elim (split_not_nil sep r).
      * injection E as <- <-. destruct (IH seg' segs' eq_refl) as [I D].
        split; [simpl; now rewrite C, I|].
        destruct D as [[-> ->]|[rest [-> ->]]].
        -- now left.
        -- right. exists rest. split; reflexivity.
Qed.

(** X1: No segment of [s.split(sep)] holds the separator. *)
Theorem split_segments_separator_free :
  forall sep s seg, In seg (split sep s) -> includes sep seg = false.
Proof.
  intros sep s. induction s as [|c r IH]; simpl; intros seg H.
  - destruct H as [<-|[]]. reflexivity.
  - destruct (Ascii.eqb c sep) eqn:C.
    + destruct H as [<-|H]; [reflexivity | now apply IH].
    + destruct (split sep r) as [|seg' segs'] eqn:R.
      * destruct H as [<-|[]]. simpl. now rewrite C.
      * destruct H as [<-|H].
        -- simpl. rewrite C. apply IH. now left.
        -- apply IH. now right.
Qed.

Lemma split_segments_separator_free_witness :
  includes "/" "news" = false.
Proof.
  apply (split_segments_separator_free "/" "/en/news/launch" "news").
  simpl. auto.
Defined.

(** X2: [s.split(sep).join(sep)] is [s]. *)
Theorem join_split :
  forall sep s, join sep (split sep s) = s.
Proof.
  intros sep s. induction s as [|c r IH]; simpl; [reflexivity|].
  destruct (Ascii.eqb c sep) eqn:C.
  - apply Ascii.eqb_eq in C. subst c.
    destruct (split sep r) as [|seg segs] eqn:R.
    + now elim (split_not_nil sep r).
    + simpl. simpl in IH. now rewrite IH.
  - destruct (split sep r) as [|seg segs] eqn:R.
    + now elim (split_not_nil sep r).
    + rewrite <- IH. destruct segs; reflexivity.
Qed.

(** X3: Splitting a join of separator-free segments gives the segments back. *)
Theorem split_join :
  forall sep segs,
    segs <> [] ->
    (forall seg, In seg segs -> includes sep seg = false) ->
    split sep (join sep segs) = segs.
Proof.
  intros sep segs. induction segs as [|seg segs IH]; intros N F.
  - now elim N.
  - destruct segs as [|seg' segs'].
    + simpl. apply split_last_segment. apply F. now left.
    + change (join sep (seg :: seg' :: segs'))
        with (seg ++ String sep (join sep (seg' :: segs'))).
      rewrite split_segment by (apply F; now left).
      f_equal. apply IH; [discriminate|].
      intros x Hx. apply F. now right.
Qed.

Lemma split_join_witness :
  split "/" (join "/" [""; "en"; "about"]) = [""; "en"; "about"].
Proof.
  apply split_join.
  - discriminate.
  - intros seg [<-|[<-|[<-|[]]]]; reflexivity.
Defined.

(** ** What [getLangFromUrl] can return *)

(** The property names of [ui], own and inherited, hold no '/'. *)
Lemma property_names_slash_free l :
  has_property ui_keys l = true -> includes "/" l = false.
Proof.
  unfold has_property. intros H. apply orb_true_iff in H.
  destruct H as [H|H]; apply mem_In in H; simpl in H;
    repeat (destruct H as [<-|H]; [reflexivity|]); contradiction.
Qed.

(** The resolved language is a property name of [ui]. *)
Lemma getLangFromUrl_has_property url l :
  getLangFromUrl url = Some l -> has_property ui_keys l = true.
Proof.
  unfold getLangFromUrl.
  destruct (nth_error (split "/" (pathname url)) 1) as [seg|]; simpl.
  - destruct (has_property ui_keys seg) eqn:P; intros E; injection E as <-;
      [exact P | reflexivity].
  - intros E. injection E as <-. reflexivity.
Qed.

(** A property name of [ui] used as the first segment is the result. *)
Lemma getLangFromUrl_prefix l :
  has_property ui_keys l = true ->
  (forall rest, getLangFromUrl {| pathname := "/" ++ l ++ "/" ++ rest |} = Some l) /\
  getLangFromUrl {| pathname := "/" ++ l |} = Some l.
Proof.
  intros P. pose proof (property_names_slash_free l P) as F. split.
  - intros rest. unfold getLangFromUrl. simpl pathname.
    change ("/" ++ l ++ "/" ++ rest) with (String "/" (l ++ String "/" rest)).
    simpl split. rewrite (split_segment "/" l rest F). simpl. now rewrite P.
  - unfold getLangFromUrl. simpl pathname.
    change ("/" ++ l) with (String "/" l).
    simpl split. rewrite (split_last_segment "/" l F). simpl. now rewrite P.
Qed.

(** X4: Whatever the URL, the result is defined, holds no '/', and is a
    supported code or one of the property names every object inherits:
    no other part of the request path can come out as the language. *)
Theorem getLangFromUrl_range :
  forall url,
    exists l,
      getLangFromUrl url = Some l /\
      (In l supported \/ In l object_prototype_keys) /\
      includes "/" l = false.
Proof.
  intros url. destruct (getLangFromUrl_defined url) as [l E]. exists l.
  pose proof (getLangFromUrl_has_property url l E) as P.
  split; [exact E|]. split; [|exact (property_names_slash_free l P)].
  unfold has_property in P. apply orb_true_iff in P.
  destruct P as [P|P]; apply mem_In in P; [left | right]; exact P.
Qed.

(** X5: A language other than the default is resolved for exactly the paths
    "/l" and "/l/...", [l] being a property name of [ui]: with "en", the
    English pages are those under "/en" and no others. *)
Theorem getLangFromUrl_non_default_iff :
  forall q l,
    l <> code defaultLang ->
    (getLangFromUrl {| pathname := "/" ++ q |} = Some l <->
     has_property ui_keys l = true /\
     (q = l \/ exists rest, q = l ++ "/" ++ rest)).
Proof.
  intros q l N. split.
  - intros E. pose proof (getLangFromUrl_has_property _ _ E) as P.
    split; [exact P|].
    unfold getLangFromUrl in E. simpl pathname in E.
    change ("/" ++ q) with (String "/" q) in E. simpl split in E.
    destruct (split "/" q) as [|seg segs] eqn:S.
    + now elim (split_not_nil "/"%char q).
    + simpl in E. destruct (has_property ui_keys seg).
      * injection E as ->. destruct (split_inv _ _ _ _ S) as [_ D].
        destruct D as [[_ ->]|[rest [-> _]]]; [now left|].
        right. exists rest. reflexivity.
      * injection E as <-. now elim N.
  - intros [P [->|[rest ->]]].
    + apply (getLangFromUrl_prefix l P).
    + apply (getLangFromUrl_prefix l P).
Qed.

Lemma getLangFromUrl_non_default_iff_witness :
  getLangFromUrl {| pathname := "/" ++ "en/team" |} = Some "en".
Proof.
  apply (proj2 (getLangFromUrl_non_default_iff "en/team" "en"
                  ltac:(discriminate))).
  split; [reflexivity|]. right. exists "team". reflexivity.
Defined.

(** X6: Prefixing any path with the resolved language resolves to that
    language again: links built as "/" + lang + "/..." from the language
    of the current page stay in that language. *)
Theorem getLangFromUrl_prefix_stable :
  forall url,
    exists l,
      getLangFromUrl url = Some l /\
      (forall rest,
          getLangFromUrl {| pathname := "/" ++ l ++ "/" ++ rest |} = Some l) /\
      getLangFromUrl {| pathname := "/" ++ l |} = Some l.
Proof.
  intros url. destruct (getLangFromUrl_defined url) as [l E]. exists l.
  split; [exact E|].
  exact (getLangFromUrl_prefix l (getLangFromUrl_has_property url l E)).
Qed.

(** X7: Every locale of the [i18n] block of the site configuration is a
    supported language, and a path that starts with it resolves to it. *)
Theorem i18n_locales_resolve :
  forall l,
    In l i18n_locales ->
    In l supported /\
    (forall rest,
        getLangFromUrl {| pathname := "/" ++ l ++ "/" ++ rest |} = Some l) /\
    getLangFromUrl {| pathname := "/" ++ l |} = Some l.
Proof.
  intros l H. split; [exact H|].
  apply getLangFromUrl_prefix. unfold has_property.
  assert (M : mem l ui_keys = true) by (apply mem_In; exact H).
  now rewrite M.
Qed.

Lemma i18n_locales_resolve_witness :
  In "en" supported /\
  (forall rest,
      getLangFromUrl {| pathname := "/" ++ "en" ++ "/" ++ rest |} = Some "en") /\
  getLangFromUrl {| pathname := "/" ++ "en" |} = Some "en".
Proof.
  apply (i18n_locales_resolve "en"). simpl. auto.
Defined.

(** ** When a translation is blank *)

Lemma get_Undefined o key :
  get o key = Undefined <-> own o key = None /\ ~ In key object_prototype_keys.
Proof.
  unfold get. destruct (own o key) as [v|].
  - split; [discriminate | intros [E _]; discriminate].
  - destruct (mem key object_prototype_keys) eqn:M.
    + split; [discriminate|]. intros [_ N]. apply mem_not_In in N. congruence.
    + split; [|reflexivity]. intros _. split; [reflexivity|].
      now apply mem_not_In.
Qed.

Lemma get_Str o key v : get o key = Str v <-> own o key = Some v.
Proof.
  unfold get. destruct (own o key) as [w|].
  - split; intros E; injection E as <-; reflexivity.
  - destruct (mem key object_prototype_keys); split; discriminate.
Qed.

(** The reads that are falsy: an absent key that is not inherited, and a
    key registered with the empty string. *)
Lemma get_falsy o key :
  truthy (get o key) = false <->
  (own o key = None /\ ~ In key object_prototype_keys) \/ own o key = Some "".
Proof.
  split.
  - destruct (get o key) as [|v|n] eqn:G; simpl; intros T.
    + left. now apply get_Undefined.
    + right. apply get_Str in G. apply negb_false_iff in T.
      apply String.eqb_eq in T. now subst v.
    + discriminate.
  - intros [A|E].
    + apply get_Undefined in A. now rewrite A.
    + apply get_Str in E. now rewrite E.
Qed.

(** X8: [t(key)] is [undefined] exactly when the key is no inherited property
    name, the default table lacks it, and the table of the language lacks
    it or registers the empty string for it. *)
Theorem useTranslations_undefined_iff :
  forall (u : tables) (lang : Lang) (key : string),
    useTranslations_on u lang key = Undefined <->
    ~ In key object_prototype_keys /\
    own (table_of u defaultLang) key = None /\
    (own (table_of u lang) key = None \/ own (table_of u lang) key = Some "").
Proof.
  intros u lang key. unfold useTranslations_on, logical_or.
  destruct (truthy (get (table_of u lang) key)) eqn:T.
  - split.
    + intros E. rewrite E in T. discriminate.
    + intros [N [_ L]].
      assert (F : truthy (get (table_of u lang) key) = false).
      { apply get_falsy. destruct L as [L|L]; [left | right]; auto. }
      congruence.
  - rewrite get_Undefined. apply get_falsy in T. split.
    + intros [D N]. repeat split; try assumption.
      destruct T as [[L _]|L]; [left | right]; exact L.
    + intros [N [D _]]. now split.
Qed.

Lemma useTranslations_undefined_iff_witness :
  useTranslations_on ui en "nav.search" = Undefined.
Proof.
  apply (proj2 (useTranslations_undefined_iff ui en "nav.search")).
  split; [apply mem_not_In; reflexivity|].
  split; [reflexivity|]. left. reflexivity.
Defined.

(** X9: [t(key)] is the empty string exactly when the default table registers
    the empty string for the key and the read in the language is falsy:
    blank text can only come from a blank entry of the default language. *)
Theorem useTranslations_empty_iff :
  forall (u : tables) (lang : Lang) (key : string),
    useTranslations_on u lang key = Str "" <->
    own (table_of u defaultLang) key = Some "" /\
    (own (table_of u lang) key = Some "" \/
     (own (table_of u lang) key = None /\ ~ In key object_prototype_keys)).
Proof.
  intros u lang key. unfold useTranslations_on, logical_or.
  destruct (truthy (get (table_of u lang) key)) eqn:T.
  - split.
    + intros E. rewrite E in T. discriminate.
    + intros [_ L].
      assert (F : truthy (get (table_of u lang) key) = false).
      { apply get_falsy. destruct L as [L|L]; [right | left]; auto. }
      congruence.
  - rewrite get_Str. apply get_falsy in T. split.
    + intros D. split; [exact D|]. destruct T as [L|L]; [right | left]; exact L.
    + intros [D _]. exact D.
Qed.

Lemma useTranslations_empty_iff_witness :
  useTranslations_on
    {| zh_table := [("nav.home", "")]; en_table := [] |} en "nav.home" = Str "".
Proof.
  apply (proj2 (useTranslations_empty_iff
                  {| zh_table := [("nav.home", "")]; en_table := [] |}
                  en "nav.home")).
  split; [reflexivity|]. right. split; [reflexivity|].
  apply mem_not_In. reflexivity.
Defined.

(** X10: In the default language the fallback changes nothing: [t(key)] is the
    plain read of the default table, whatever the tables hold. *)
Theorem useTranslations_default_is_lookup :
  forall (u : tables) (key : string),
    useTranslations_on u defaultLang key = get (table_of u defaultLang) key.
Proof.
  intros u key. unfold useTranslations_on, logical_or.
  now destruct (truthy (get (table_of u defaultLang) key)).
Qed.

(** X11: On the tables of the site the fallback is never taken: for every
    language and every key whatever, registered or not, [t(key)] is the
    read of that language's own table. *)
Theorem useTranslations_ui_no_fallback :
  forall (lang : Lang) (key : string),
    useTranslations lang key = get (table_of ui lang) key.
Proof.
  intros lang key. unfold useTranslations, useTranslations_on, logical_or.
  destruct (truthy (get (table_of ui lang) key)) eqn:T; [reflexivity|].
  apply get_falsy in T. destruct T as [[L N]|L].
  - assert (D : own (table_of ui defaultLang) key = None).
    { destruct (own (table_of ui defaultLang) key) as [v|] eqn:D; [|reflexivity].
      exfalso.
      assert (K0 : In key (keys (table_of ui defaultLang)))
        by (apply own_keys; eauto).
      assert (K : In key (keys (table_of ui lang)))
        by (destruct lang; exact K0).
      apply own_keys in K. destruct K as [w W]. congruence. }
    rewrite (proj2 (get_Undefined _ _) (conj D N)).
    now rewrite (proj2 (get_Undefined _ _) (conj L N)).
  - now elim (all_non_empty_own _ _ _ (ui_non_empty lang) L).
Qed.

(** ** The two news schemas *)

(** X12: The schema with the language enumeration is the stricter one: a
    document it accepts is accepted by [news] and [docs] of
    src/content/config.ts as well, with the same values for the fields
    they declare and the same body, and its [lang] is a supported code. *)
Theorem newsCollection_stricter_than_news :
  forall d r,
    validate (schema newsCollection) d = inl r ->
    (exists r',
        validate (schema news) d = inl r' /\
        validate (schema docs) d = inl r' /\
        (forall f, In f (keys (schema news)) ->
                   own (data r') f = own (data r) f) /\
        body r' = body r) /\
    (exists l, own (data r) "lang" = Some (FStr l) /\ In l supported).
Proof.
  intros d r V.
  pose proof (validate_inl_fields _ _ _ V) as [F [_ B]].
  assert (C : forall k z, In (k, z) (schema newsCollection) ->
                          check z (own (frontmatter d) k) = None).
  { unfold validate in V.
    destruct (parse (schema newsCollection) (frontmatter d)) as [x|e] eqn:P;
      [|discriminate].
    exact (parse_inl_checks _ _ _ P). }
  pose proof (C "title" z_string ltac:(simpl; auto)) as Ct.
  pose proof (C "description" z_string ltac:(simpl; auto)) as Cd.
  pose proof (C "pubDate" z_date ltac:(simpl; auto)) as Cp.
  pose proof (C "lang" (z_enum ["zh"; "en"]) ltac:(simpl; auto 6)) as Cl.
  cbn -[mem] in Ct, Cd, Cp, Cl.
  destruct (own (frontmatter d) "title") as [[t| | | |]|] eqn:Title;
    try discriminate Ct.
  destruct (own (frontmatter d) "description") as [[ds| | | |]|] eqn:Description;
    try discriminate Cd.
  destruct (own (frontmatter d) "pubDate") as [[|ms| | |]|] eqn:PubDate;
    try discriminate Cp.
  destruct (own (frontmatter d) "lang") as [[l| | | |]|] eqn:Lang;
    try discriminate Cl.
  destruct (mem l ["zh"; "en"]) eqn:M; [|discriminate Cl].
  split.
  - assert (N : validate (schema news) d =
                inl {| data := [ ("title", FStr t); ("description", FStr ds);
                                 ("pubDate", FDate ms); ("lang", FStr l) ];
                       body := raw_body d |}).
    { unfold validate. simpl. now rewrite Title, Description, PubDate, Lang. }
    eexists. split; [exact N|]. split; [exact N|]. split; [|now rewrite B].
    intros f Hf.
    rewrite (F f) by (simpl in Hf; simpl; intuition).
    simpl in Hf. destruct Hf as [<-|[<-|[<-|[<-|[]]]]]; simpl; congruence.
  - exists l. split.
    + rewrite (F "lang") by (simpl; auto 6). exact Lang.
    + apply mem_In. exact M.
Qed.

Lemma newsCollection_stricter_than_news_witness :
  (exists r',
      validate (schema news) Samples.tech_workshop_en = inl r' /\
      validate (schema docs) Samples.tech_workshop_en = inl r' /\
      (forall f, In f (keys (schema news)) ->
                 own (data r') f = own (frontmatter Samples.tech_workshop_en) f) /\
      body r' = "## Workshop Overview") /\
  (exists l, own (frontmatter Samples.tech_workshop_en) "lang" = Some (FStr l) /\
             In l supported).
Proof.
  apply (newsCollection_stricter_than_news Samples.tech_workshop_en
           {| data := frontmatter Samples.tech_workshop_en;
              body := "## Workshop Overview" |}).
  reflexivity.
Defined.
